(** * AndroidDemo: the directory reporter and its JNI bridge

    A shallow embedding of [systemfonts.cpp] ([join], [load_fonts_info]) and
    of [jni.cpp] ([string_from_jstring], the exported [loadFontsInfo]).

    A [std::string] is a [string] of bytes.  The file system is not part of
    the program: it is a record of the answers the [std::filesystem] calls
    give, each of them either a value or a thrown [std::exception].  An
    [std::ostringstream] is the string written so far, threaded through the
    code together with the exception that may be in flight, so that what was
    written before a throw is still in the stream when the handler runs. *)

From Stdlib Require Import String Ascii List Bool NArith Lia DecimalString.
From Stdlib Require Import DecimalN Permutation.
Import ListNotations.
Local Open Scope string_scope.

(** ** The C++ library, as far as the two files use it *)

Module Cxx.

(** [std::exception]: all the code ever does with one is call [what()],
    a [const char*]. *)
Record exception : Type := { what : string }.

(** The result of evaluating a C++ expression. *)
Inductive outcome (A : Type) : Type :=
| Normal (a : A)
| Throw (e : exception).
Arguments Normal {A} a.
Arguments Throw {A} e.

Definition bind {A B} (c : outcome A) (k : A -> outcome B) : outcome B :=
  match c with
  | Normal a => k a
  | Throw e => Throw e
  end.

(** [try { c } catch (const std::exception &e) { h e }] *)
Definition try_catch {A} (c : outcome A) (h : exception -> outcome A)
  : outcome A :=
  match c with
  | Normal a => Normal a
  | Throw e => h e
  end.

(** A [const char*] is read up to its terminator: the bytes before the
    first NUL. *)
Fixpoint until_nul (s : string) : string :=
  match s with
  | EmptyString => EmptyString
  | String c rest =>
      if Ascii.eqb c zero then EmptyString else String c (until_nul rest)
  end.

(** A [std::string] built from a [const char*]. *)
Definition std_string (p : string) : string := until_nul p.

(** What a reader of [s.c_str()] sees. *)
Definition c_str (s : string) : string := until_nul s.

Fixpoint nul_free (s : string) : bool :=
  match s with
  | EmptyString => true
  | String c rest => negb (Ascii.eqb c zero) && nul_free rest
  end.

(** The newline character, written ["\n"] in the source. *)
Definition newline : ascii := ascii_of_nat 10.
Definition nl : string := String newline EmptyString.

(** [operator<<] for an unsigned integer: decimal digits, no sign, no
    grouping, no leading zero. *)
Definition decimal (n : N) : string := NilEmpty.string_of_uint (N.to_uint n).

(** *** [std::ostringstream]

    A computation over one stream: it may throw, and the stream keeps what
    was written up to then. *)
Definition ostringstream : Type := string.
Definition stream (A : Type) : Type :=
  ostringstream -> outcome A * ostringstream.

Definition sbind {A B} (c : stream A) (k : A -> stream B) : stream B :=
  fun oss =>
    match c oss with
    | (Normal a, oss') => k a oss'
    | (Throw e, oss') => (Throw e, oss')
    end.

(** [oss << s] *)
Definition put (s : string) : stream unit :=
  fun oss => (Normal tt, oss ++ s).

(** Evaluating an expression that does not touch the stream. *)
Definition eval {A} (c : outcome A) : stream A := fun oss => (c, oss).

(** [try { c } catch (const std::exception &e) { h e }] around stream
    writes: the handler continues on the stream as the throw left it. *)
Definition stry_catch {A} (c : stream A) (h : exception -> stream A)
  : stream A :=
  fun oss =>
    match c oss with
    | (Normal a, oss') => (Normal a, oss')
    | (Throw e, oss') => h e oss'
    end.

(** [std::ostringstream oss; body; return oss.str();] *)
Definition str_of (body : stream unit) : outcome string :=
  match body EmptyString with
  | (Normal _, oss) => Normal oss
  | (Throw e, _) => Throw e
  end.

(** *** [std::filesystem] *)

Inductive file_type : Type :=
| ft_none | ft_not_found | ft_regular | ft_directory | ft_symlink
| ft_block | ft_character | ft_fifo | ft_socket | ft_unknown.

Definition file_type_eqb (a b : file_type) : bool :=
  match a, b with
  | ft_none, ft_none | ft_not_found, ft_not_found
  | ft_regular, ft_regular | ft_directory, ft_directory
  | ft_symlink, ft_symlink | ft_block, ft_block
  | ft_character, ft_character | ft_fifo, ft_fifo
  | ft_socket, ft_socket | ft_unknown, ft_unknown => true
  | _, _ => false
  end.

(** [exists(file_status)]: the status is known and is not [not_found]. *)
Definition status_exists (t : file_type) : bool :=
  negb (file_type_eqb t ft_none) && negb (file_type_eqb t ft_not_found).

(** A [directory_entry] of the directory being walked. *)
Record directory_entry : Type := {
  (** [entry.path().filename().generic_string()] *)
  filename : string;
  (** [entry.symlink_status()]: the kind of the entry itself, a symbolic
      link not followed *)
  symlink_status : outcome file_type;
  (** the status of what a symbolic link leads to; asked of a link only *)
  link_target : outcome file_type;
  (** [std::filesystem::file_size(entry.path())], a [uintmax_t] *)
  file_size : outcome N
}.

(** [entry.status()]: the kind with symbolic links followed, so that a link
    has the kind of what it leads to.  [is_regular_file()] and
    [is_directory()] are tests on this status. *)
Definition entry_status (entry : directory_entry) : outcome file_type :=
  bind (symlink_status entry)
    (fun t => if file_type_eqb t ft_symlink then link_target entry
              else Normal t).

Definition entry_is_regular_file (entry : directory_entry) : outcome bool :=
  bind (entry_status entry) (fun t => Normal (file_type_eqb t ft_regular)).

Definition entry_is_directory (entry : directory_entry) : outcome bool :=
  bind (entry_status entry) (fun t => Normal (file_type_eqb t ft_directory)).

(** A [directory_iterator] from its construction to the end iterator:
    constructing it or incrementing it may throw. *)
Inductive directory_stream : Type :=
| dir_end
| dir_next (entry : directory_entry) (rest : directory_stream)
| dir_fail (e : exception).

(** The state of the file system, as the calls observe it. *)
Record filesystem : Type := {
  (** [std::filesystem::status(p)] *)
  status : string -> outcome file_type;
  (** [std::filesystem::directory_iterator(p)] *)
  directory_iterator : string -> directory_stream
}.

(** [std::filesystem::exists(p)] *)
Definition fs_exists (fs : filesystem) (p : string) : outcome bool :=
  bind (status fs p) (fun t => Normal (status_exists t)).

(** [std::filesystem::is_directory(p)] *)
Definition fs_is_directory (fs : filesystem) (p : string) : outcome bool :=
  bind (status fs p) (fun t => Normal (file_type_eqb t ft_directory)).

End Cxx.

Import Cxx.

Declare Scope outcome_scope.
Delimit Scope outcome_scope with outcome.
Notation "x <- c ;; k" := (bind c (fun x => k))
  (at level 61, c at next level, right associativity) : outcome_scope.

Declare Scope stream_scope.
Delimit Scope stream_scope with stream.
Notation "x <- c ;; k" := (sbind c (fun x => k))
  (at level 61, c at next level, right associativity) : stream_scope.
Notation "c ;; k" := (sbind c (fun _ => k))
  (at level 61, right associativity) : stream_scope.

(** ** systemfonts.cpp *)

Module SystemFonts.

(** [static std::string join(std::span<std::string> arr,
                             std::string_view sep)] *)
Definition join (arr : list string) (sep : string) : string :=
  match arr with
  | [] => ""
  | arr0 :: rest => fold_left (fun oss item => (oss ++ sep) ++ item) rest arr0
  end.

(** The lambda handed to [std::transform]: one entry to its line. *)
Definition entry_line (entry : directory_entry) : outcome string :=
  str_of
    (put (filename entry) ;;
     is_file <- eval (entry_is_regular_file entry) ;;
     if is_file : bool then
       stry_catch
         (put " -> " ;;
          size <- eval (file_size entry) ;;
          put (decimal size) ;;
          put " Bytes")
         (fun _ => put " -> 无法读取文件大小")
     else
       is_dir <- eval (entry_is_directory entry) ;;
       if is_dir : bool then put " -> [目录]"
       else put " -> [其他类型]")%stream.

(** [std::transform(first, end, std::back_inserter(fontfiles), op)] *)
Fixpoint transform (first : directory_stream) (fontfiles : list string)
  : outcome (list string) :=
  match first with
  | dir_end => Normal fontfiles
  | dir_fail e => Throw e
  | dir_next entry rest =>
      (line <- entry_line entry ;;
       transform rest (fontfiles ++ [line]))%outcome
  end.

(** The body of the [try] block of [load_fonts_info]. *)
Definition load_fonts_info_try (fs : filesystem) (directory : string)
  : outcome string :=
  (found <- fs_exists fs directory ;;
   if negb found then
     Normal (("错误: 目录 '" ++ directory) ++ "' 不存在")
   else
     is_dir <- fs_is_directory fs directory ;;
     if negb is_dir then
       Normal (("错误: '" ++ directory) ++ "' 不是一个目录")
     else
       fontfiles <- transform (directory_iterator fs directory) [] ;;
       match fontfiles with
       | [] => Normal (("目录 '" ++ directory) ++ "' 中没有找到任何文件")
       | _ :: _ =>
           str_of
             (put "目录: " ;; put directory ;; put nl ;;
              put "找到 " ;; put (decimal (N.of_nat (length fontfiles))) ;;
              put (" 个项目:" ++ nl ++ nl) ;;
              put (join fontfiles nl))%stream
       end)%outcome.

(** [std::string load_fonts_info(const std::string &directory)] *)
Definition load_fonts_info (fs : filesystem) (directory : string)
  : outcome string :=
  try_catch (load_fonts_info_try fs directory)
    (fun e => Normal ("访问目录时发生错误: " ++ std_string (what e))).

End SystemFonts.

(** ** jni.cpp *)

Module Jni.

Import SystemFonts.

Section Bridge.

(** The host's string handles, and the two JNI calls the bridge makes:
    [GetStringUTFChars] gives the bytes at the returned [const char*];
    [NewStringUTF] builds a handle from the bytes it is handed. *)
Variable jstring : Type.
Variable GetStringUTFChars : jstring -> string.
Variable NewStringUTF : string -> jstring.

(** [static std::string string_from_jstring(JNIEnv *env, jstring jstr)] *)
Definition string_from_jstring (jstr : jstring) : string :=
  let str := GetStringUTFChars jstr in
  let result := std_string str in
  result.

(** [Java_androidx_appcompat_demo_MainActivity_loadFontsInfo] *)
Definition Java_androidx_appcompat_demo_MainActivity_loadFontsInfo
  (fs : filesystem) (directory : jstring) : outcome jstring :=
  (result <- load_fonts_info fs (string_from_jstring directory) ;;
   Normal (NewStringUTF (c_str result)))%outcome.

End Bridge.

End Jni.


(** ** Vocabulary for the statements *)

Module Report.

Import SystemFonts.

(** A directory whose enumeration yields exactly [entries] and then ends. *)
Fixpoint listing (entries : list directory_entry) : directory_stream :=
  match entries with
  | [] => dir_end
  | entry :: rest => dir_next entry (listing rest)
  end.

(** The kind of the entry can be read. *)
Definition status_known (entry : directory_entry) : Prop :=
  exists t, entry_status entry = Normal t.

(** [line] is what the reporter renders for [entry]. *)
Definition rendered (entry : directory_entry) (line : string) : Prop :=
  entry_line entry = Normal line.

(** The first fault a walk over the stream meets: the iterator failing, or
    the kind of an entry being unreadable. *)
Fixpoint stream_fault (it : directory_stream) : option exception :=
  match it with
  | dir_end => None
  | dir_fail e => Some e
  | dir_next entry rest =>
      match entry_status entry with
      | Throw e => Some e
      | Normal _ => stream_fault rest
      end
  end.

(** The first fault that reporting on [directory] meets outside the
    per-file size lookups. *)
Definition enumeration_fault (fs : filesystem) (directory : string)
  : option exception :=
  match status fs directory with
  | Throw e => Some e
  | Normal t =>
      if file_type_eqb t ft_directory
      then stream_fault (directory_iterator fs directory)
      else None
  end.

(** [msg] names [path]: the path occurs in it, byte for byte. *)
Definition names_path (msg path : string) : Prop :=
  exists before after, msg = before ++ path ++ after.

Fixpoint last_char (s : string) : option ascii :=
  match s with
  | EmptyString => None
  | String c EmptyString => Some c
  | String _ rest => last_char rest
  end.

Fixpoint newline_free (s : string) : bool :=
  match s with
  | EmptyString => true
  | String c rest => negb (Ascii.eqb c newline) && newline_free rest
  end.

(** The text lines of a string: its pieces between newlines. *)
Fixpoint text_lines (s : string) : list string :=
  match s with
  | EmptyString => [EmptyString]
  | String c rest =>
      if Ascii.eqb c newline then EmptyString :: text_lines rest
      else
        match text_lines rest with
        | [] => [String c EmptyString]
        | line :: more => String c line :: more
        end
  end.

(** File names are C strings ([dirent::d_name]): no entry of the stream has
    a NUL in its name. *)
Fixpoint names_nul_free (it : directory_stream) : bool :=
  match it with
  | dir_end => true
  | dir_fail _ => true
  | dir_next entry rest => nul_free (filename entry) && names_nul_free rest
  end.

End Report.

(** ** Sample file systems *)

Module Samples.

Import Report.

Definition no_target : outcome file_type :=
  Throw {| what := "filesystem error: read_symlink: Invalid argument" |}.

Definition a_txt : directory_entry :=
  {| filename := "a.txt";
     symlink_status := Normal ft_regular;
     link_target := no_target;
     file_size := Normal 12%N |}.

Definition b_dir : directory_entry :=
  {| filename := "b";
     symlink_status := Normal ft_directory;
     link_target := no_target;
     file_size := Throw {| what := "filesystem error: cannot get file size: Is a directory [/tmp/x/b]" |} |}.

Definition sock : directory_entry :=
  {| filename := "ctl.sock";
     symlink_status := Normal ft_socket;
     link_target := no_target;
     file_size := Throw {| what := "filesystem error: cannot get file size: Operation not supported [/dev/ctl.sock]" |} |}.

(** A symbolic link to a regular file of 12 bytes. *)
Definition latest_ttf : directory_entry :=
  {| filename := "latest.ttf";
     symlink_status := Normal ft_symlink;
     link_target := Normal ft_regular;
     file_size := Normal 12%N |}.

(** A symbolic link to a file that is not there. *)
Definition dangling : directory_entry :=
  {| filename := "old.ttf";
     symlink_status := Normal ft_symlink;
     link_target := Normal ft_not_found;
     file_size := Throw {| what := "filesystem error: cannot get file size: No such file or directory [/fonts/old.ttf]" |} |}.

(** A regular file whose size cannot be read. *)
Definition locked_ttf : directory_entry :=
  {| filename := "locked.ttf";
     symlink_status := Normal ft_regular;
     link_target := no_target;
     file_size := Throw {| what := "filesystem error: cannot get file size: Permission denied [/fonts/locked.ttf]" |} |}.

(** An entry whose kind cannot be read. *)
Definition vanished : directory_entry :=
  {| filename := "gone";
     symlink_status := Throw {| what := "filesystem error: status: Input/output error [/run/gone]" |};
     link_target := no_target;
     file_size := Throw {| what := "filesystem error: cannot get file size: Input/output error [/run/gone]" |} |}.

Definition denied : exception :=
  {| what := "filesystem error: directory iterator cannot open directory: Permission denied [/root]" |}.

Definition not_a_directory : exception :=
  {| what := "filesystem error: directory iterator cannot open directory: Not a directory" |}.

(** [/tmp/x] holds [a.txt] (12 bytes) and the directory [b]; [/tmp/empty]
    is an empty directory; [/etc/hosts] is a regular file; [/fonts] holds a
    file of unreadable size and [a.txt]; [/root] cannot be opened; the
    listing of [/mnt] breaks after its first entry; [/dev] holds a socket
    and an entry of unreadable kind comes up in [/run]. *)
Definition sample_status (p : string) : outcome file_type :=
  if (p =? "/tmp/x") || (p =? "/tmp/empty") || (p =? "/fonts")
     || (p =? "/root") || (p =? "/mnt") || (p =? "/dev") || (p =? "/run")
  then Normal ft_directory
  else if p =? "/etc/hosts" then Normal ft_regular
  else if p =? "/proc/secret"
  then Throw {| what := "filesystem error: status: Permission denied [/proc/secret]" |}
  else Normal ft_not_found.

Definition sample_iterator (p : string) : directory_stream :=
  if p =? "/tmp/x" then listing [a_txt; b_dir]
  else if p =? "/tmp/empty" then dir_end
  else if p =? "/fonts" then listing [locked_ttf; a_txt]
  else if p =? "/root" then dir_fail denied
  else if p =? "/mnt" then dir_next a_txt (dir_fail denied)
  else if p =? "/dev" then listing [sock]
  else if p =? "/run" then listing [a_txt; vanished; b_dir]
  else dir_fail not_a_directory.

Definition sample_fs : filesystem :=
  {| status := sample_status; directory_iterator := sample_iterator |}.

(** The same directory [/tmp/x] in a file system that differs elsewhere. *)
Definition other_fs : filesystem :=
  {| status := fun p => if p =? "/tmp/x" then Normal ft_directory
                        else Normal ft_regular;
     directory_iterator := fun p => if p =? "/tmp/x" then listing [a_txt; b_dir]
                                    else dir_end |}.

End Samples.

(** ** systemfonts.cpp: reading a file *)

Module FileReading.

(** What the buffer of an open [std::ifstream] delivers, byte by byte: the
    end of the file, a byte and what follows it, or a fault thrown by the
    buffer while it refills. *)
Inductive byte_source : Type :=
| at_eof
| next_byte (c : ascii) (rest : byte_source)
| read_fault (e : exception).

(** What [std::ifstream file(path, std::ios::binary)] finds behind each
    path: the bytes of the file, or nothing when it cannot be opened.  The
    constructor throws in neither case. *)
Definition file_store : Type := string -> option byte_source.

(** [file.rdbuf()], as an [istreambuf_iterator] reads it: the buffer of a
    stream that failed to open is at its end at once. *)
Definition rdbuf (file : option byte_source) : byte_source :=
  match file with
  | Some src => src
  | None => at_eof
  end.

(** [std::string(first, std::istreambuf_iterator<char>())]: the bytes from
    [first] to the end of the buffer. *)
Fixpoint string_from_iterators (first : byte_source) : outcome string :=
  match first with
  | at_eof => Normal EmptyString
  | next_byte c rest =>
      (tail <- string_from_iterators rest ;; Normal (String c tail))%outcome
  | read_fault e => Throw e
  end.

(** [static std::string read_file(const std::filesystem::path &path)] *)
Definition read_file (files : file_store) (path : string) : outcome string :=
  let file := files path in
  string_from_iterators (rdbuf file).

End FileReading.

(** ** More vocabulary *)

Module Outcomes.

Import SystemFonts Report FileReading.

(** The five kinds of result [load_fonts_info] has. *)
Inductive message_kind : Type :=
| MissingPath | NotADirectory | EmptyDirectory | Listing | Fault.

(** The kind of result the state of the file system calls for. *)
Definition expected_kind (fs : filesystem) (directory : string)
  : message_kind :=
  match status fs directory with
  | Throw _ => Fault
  | Normal t =>
      if negb (status_exists t) then MissingPath
      else if negb (file_type_eqb t ft_directory) then NotADirectory
      else
        match stream_fault (directory_iterator fs directory) with
        | Some _ => Fault
        | None =>
            match directory_iterator fs directory with
            | dir_end => EmptyDirectory
            | _ => Listing
            end
        end
  end.

Fixpoint starts_with (pre s : string) : bool :=
  match pre, s with
  | EmptyString, _ => true
  | String a pre', String b s' => Ascii.eqb a b && starts_with pre' s'
  | String _ _, EmptyString => false
  end.

(** Reading the kind of a result off its first bytes. *)
Definition kind_of_message (msg : string) : option message_kind :=
  if starts_with "错误: 目录 '" msg then Some MissingPath
  else if starts_with "错误: '" msg then Some NotADirectory
  else if starts_with "目录 '" msg then Some EmptyDirectory
  else if starts_with "目录: " msg then Some Listing
  else if starts_with "访问目录时发生错误: " msg then Some Fault
  else None.

(** The line of an entry, for an entry that has one. *)
Definition line_text (entry : directory_entry) : string :=
  match entry_line entry with
  | Normal line => line
  | Throw _ => EmptyString
  end.

(** The bytes of all items together. *)
Fixpoint total_length (items : list string) : nat :=
  match items with
  | [] => 0
  | item :: rest => String.length item + total_length rest
  end.

(** A file that delivers the bytes of [s] and then ends. *)
Fixpoint source_of (s : string) : byte_source :=
  match s with
  | EmptyString => at_eof
  | String c rest => next_byte c (source_of rest)
  end.

(** A file that delivers the bytes of [s] and then fails with [e]. *)
Fixpoint broken_after (s : string) (e : exception) : byte_source :=
  match s with
  | EmptyString => read_fault e
  | String c rest => next_byte c (broken_after rest e)
  end.

End Outcomes.

(** ** More samples *)

Module MoreSamples.

Import Report FileReading Outcomes Samples.

(** [/fonts/a.bin] holds five bytes, a NUL and a newline among them;
    [/fonts/empty] holds none; [/fonts/bad] breaks after one byte; nothing
    else can be opened. *)
Definition a_bin : string :=
  String "A" (String zero (String newline (String "B" (String "255" "")))).

Definition sample_files : file_store :=
  fun path =>
    if path =? "/fonts/a.bin" then Some (source_of a_bin)
    else if path =? "/fonts/empty" then Some at_eof
    else if path =? "/fonts/bad"
    then Some (next_byte "x"
                 (read_fault {| what := "basic_filebuf::underflow error reading the file" |}))
    else None.

(** [/tmp/x] with its two entries met in the other order. *)
Definition swapped_fs : filesystem :=
  {| status := sample_status;
     directory_iterator := fun p => if p =? "/tmp/x" then listing [b_dir; a_txt]
                                    else sample_iterator p |}.

(** A second regular file named [a.txt], of 13 bytes. *)
Definition a_txt_grown : directory_entry :=
  {| filename := "a.txt";
     symlink_status := Normal ft_regular;
     link_target := no_target;
     file_size := Normal 13%N |}.

End MoreSamples.

(** ** Facts about strings and streams *)

Module CxxFacts.

Import Report.

Lemma append_empty_r (s : string) : s ++ "" = s.
Proof. induction s as [|c s IH]; simpl; [reflexivity | now rewrite IH]. Qed.

Lemma append_assoc (a b c : string) : (a ++ b) ++ c = a ++ (b ++ c).
Proof. induction a as [|x a IH]; simpl; [reflexivity | now rewrite IH]. Qed.

Lemma nul_free_append (a b : string) :
  nul_free (a ++ b) = nul_free a && nul_free b.
Proof.
  induction a as [|x a IH]; simpl; [reflexivity|].
  rewrite IH. now rewrite andb_assoc.
Qed.

Lemma newline_free_append (a b : string) :
  newline_free (a ++ b) = newline_free a && newline_free b.
Proof.
  induction a as [|x a IH]; simpl; [reflexivity|].
  rewrite IH. now rewrite andb_assoc.
Qed.

Lemma until_nul_nul_free (s : string) : nul_free (until_nul s) = true.
Proof.
  induction s as [|c s IH]; simpl; [reflexivity|].
  destruct (Ascii.eqb c zero) eqn:E; simpl; [reflexivity|].
  now rewrite E, IH.
Qed.

(** Reading a string without NUL through a [const char*] loses nothing. *)
Lemma until_nul_fixed (s : string) : nul_free s = true -> until_nul s = s.
Proof.
  induction s as [|c s IH]; simpl; [reflexivity|].
  destruct (Ascii.eqb c zero); simpl; [discriminate|].
  intros H. now rewrite IH.
Qed.

Lemma digits_nul_free (d : Decimal.uint) :
  nul_free (NilEmpty.string_of_uint d) = true.
Proof. induction d; simpl; auto. Qed.

Lemma digits_newline_free (d : Decimal.uint) :
  newline_free (NilEmpty.string_of_uint d) = true.
Proof. induction d; simpl; auto. Qed.

Lemma decimal_nul_free (n : N) : nul_free (decimal n) = true.
Proof. apply digits_nul_free. Qed.

Lemma decimal_newline_free (n : N) : newline_free (decimal n) = true.
Proof. apply digits_newline_free. Qed.

Lemma last_char_append (a b : string) :
  b <> "" -> last_char (a ++ b) = last_char b.
Proof.
  intros Hb. induction a as [|x a IH]; simpl; [reflexivity|].
  destruct (a ++ b) eqn:E; [|exact IH].
  destruct a; simpl in E; [contradiction | discriminate].
Qed.

Lemma last_char_nonempty (s : string) : s <> "" -> last_char s <> None.
Proof.
  induction s as [|c s IH]; [contradiction|].
  intros _. simpl. destruct s; [discriminate|].
  apply IH. discriminate.
Qed.

End CxxFacts.

(** ** Facts about the reporter *)

Module SystemFontsFacts.

Import SystemFonts Report CxxFacts.

Ltac run_entry_line :=
  unfold entry_line, str_of, sbind, stry_catch, eval, put,
    entry_is_regular_file, entry_is_directory, bind.

Lemma entry_line_status_throw (entry : directory_entry) (e : exception) :
  entry_status entry = Throw e -> entry_line entry = Throw e.
Proof. intros H. run_entry_line. now rewrite H. Qed.

Lemma entry_line_file_sized (entry : directory_entry) (n : N) :
  entry_status entry = Normal ft_regular ->
  file_size entry = Normal n ->
  entry_line entry = Normal (filename entry ++ " -> " ++ decimal n ++ " Bytes").
Proof.
  intros Hs Hn. run_entry_line. rewrite Hs. simpl. rewrite Hn.
  now rewrite !append_assoc.
Qed.

(** When the size cannot be read the arrow is already in the stream, and the
    handler writes a second one. *)
Lemma entry_line_file_unsized (entry : directory_entry) (e : exception) :
  entry_status entry = Normal ft_regular ->
  file_size entry = Throw e ->
  entry_line entry
  = Normal (filename entry ++ " -> " ++ " -> 无法读取文件大小").
Proof.
  intros Hs Hn. run_entry_line. rewrite Hs. simpl. rewrite Hn.
  now rewrite !append_assoc.
Qed.

Lemma entry_line_directory (entry : directory_entry) :
  entry_status entry = Normal ft_directory ->
  entry_line entry = Normal (filename entry ++ " -> [目录]").
Proof. intros Hs. run_entry_line. now rewrite Hs. Qed.

Lemma entry_line_other (entry : directory_entry) (t : file_type) :
  entry_status entry = Normal t ->
  t <> ft_regular -> t <> ft_directory ->
  entry_line entry = Normal (filename entry ++ " -> [其他类型]").
Proof.
  intros Hs Hr Hd. run_entry_line. rewrite Hs.
  destruct t; try contradiction; reflexivity.
Qed.

(** Whatever the kind and the size lookup give, the line is the name and
    then a non-empty tail that holds no NUL and no newline. *)
Lemma entry_line_shape (entry : directory_entry) (t : file_type) :
  entry_status entry = Normal t ->
  exists tail,
    entry_line entry = Normal (filename entry ++ tail)
    /\ tail <> ""
    /\ last_char tail <> Some newline
    /\ nul_free tail = true
    /\ newline_free tail = true.
Proof.
  intros Hs.
  destruct (file_type_eqb t ft_regular) eqn:Er.
  - assert (t = ft_regular) by (destruct t; try discriminate; reflexivity).
    subst t. destruct (file_size entry) as [n|e] eqn:En.
    + exists (" -> " ++ decimal n ++ " Bytes"). split.
      * now apply entry_line_file_sized.
      * repeat split.
        -- discriminate.
        -- rewrite <- append_assoc, last_char_append by discriminate.
           vm_compute. discriminate.
        -- rewrite !nul_free_append, decimal_nul_free. reflexivity.
        -- rewrite !newline_free_append, decimal_newline_free. reflexivity.
    + exists (" -> " ++ " -> 无法读取文件大小"). split.
      * now apply (entry_line_file_unsized entry e).
      * repeat split; try discriminate; vm_compute; discriminate.
  - destruct (file_type_eqb t ft_directory) eqn:Ed.
    + assert (t = ft_directory) by (destruct t; try discriminate; reflexivity).
      subst t. exists " -> [目录]". split.
      * now apply entry_line_directory.
      * repeat split; try discriminate; vm_compute; discriminate.
    + exists " -> [其他类型]". split.
      * apply (entry_line_other entry t Hs); intros ->; discriminate.
      * repeat split; try discriminate; vm_compute; discriminate.
Qed.

Lemma entry_line_known (entry : directory_entry) :
  status_known entry -> exists line, rendered entry line.
Proof.
  intros [t Ht]. destruct (entry_line_shape entry t Ht) as (tail & H & _).
  now exists (filename entry ++ tail).
Qed.

(** The walk over a fault-free listing appends one line per entry, in the
    order of the listing. *)
Lemma transform_listing (entries : list directory_entry) :
  Forall status_known entries ->
  forall fontfiles,
  exists lines,
    transform (listing entries) fontfiles = Normal (fontfiles ++ lines)%list
    /\ Forall2 rendered entries lines.
Proof.
  induction 1 as [|entry rest Hk _ IH]; intros fontfiles.
  - exists []. simpl. now rewrite app_nil_r.
  - destruct (entry_line_known entry Hk) as [line Hline].
    destruct (IH (fontfiles ++ [line])%list) as (lines & Hrun & Hall).
    exists (line :: lines). split.
    + simpl. rewrite Hline. simpl. rewrite Hrun.
      now rewrite <- app_assoc.
    + now constructor.
Qed.

Lemma transform_fault (it : directory_stream) (e : exception) :
  stream_fault it = Some e ->
  forall fontfiles, transform it fontfiles = Throw e.
Proof.
  induction it as [|entry rest IH|e']; simpl; intros H fontfiles.
  - discriminate.
  - destruct (entry_status entry) as [t|e'] eqn:Es.
    + destruct (entry_line_known entry (ex_intro _ t Es)) as [line Hline].
      rewrite Hline. simpl. now apply IH.
    + injection H as ->. now rewrite (entry_line_status_throw entry e Es).
  - now injection H as ->.
Qed.

Lemma transform_no_fault (it : directory_stream) :
  stream_fault it = None ->
  forall fontfiles, exists out, transform it fontfiles = Normal out.
Proof.
  induction it as [|entry rest IH|e']; simpl; intros H fontfiles.
  - now exists fontfiles.
  - destruct (entry_status entry) as [t|e'] eqn:Es; [|discriminate].
    destruct (entry_line_known entry (ex_intro _ t Es)) as [line Hline].
    rewrite Hline. simpl. now apply IH.
  - discriminate.
Qed.

(** The walk throws exactly the first fault of the stream. *)
Lemma transform_throw (it : directory_stream) (fontfiles : list string)
  (e : exception) :
  transform it fontfiles = Throw e <-> stream_fault it = Some e.
Proof.
  split; [|intros H; now apply transform_fault].
  intros Hrun. destruct (stream_fault it) as [e'|] eqn:Hf.
  - rewrite (transform_fault it e' Hf) in Hrun. congruence.
  - destruct (transform_no_fault it Hf fontfiles) as [out Hout]. congruence.
Qed.

Lemma concat_push (sep a b : string) (rest : list string) :
  String.concat sep ((a ++ b) :: rest) = a ++ String.concat sep (b :: rest).
Proof. destruct rest; simpl; [reflexivity | now rewrite append_assoc]. Qed.

Lemma join_loop (sep : string) (rest : list string) :
  forall first,
    fold_left (fun oss item => (oss ++ sep) ++ item) rest first
    = String.concat sep (first :: rest).
Proof.
  induction rest as [|item rest IH]; intros first; [reflexivity|].
  cbn [fold_left]. rewrite IH, append_assoc, !concat_push.
  reflexivity.
Qed.

(** [join] puts the separator between consecutive items and nowhere else. *)
Lemma join_concat (arr : list string) (sep : string) :
  join arr sep = String.concat sep arr.
Proof. destruct arr as [|first rest]; [reflexivity | apply join_loop]. Qed.

(** A rendered line, taken apart. *)
Lemma rendered_shape (entry : directory_entry) (line : string) :
  rendered entry line ->
  exists tail,
    line = filename entry ++ tail
    /\ tail <> ""
    /\ last_char tail <> Some newline
    /\ nul_free tail = true
    /\ newline_free tail = true.
Proof.
  unfold rendered. intros H.
  destruct (entry_status entry) as [t|e] eqn:Es.
  - destruct (entry_line_shape entry t Es) as (tail & Hl & Ht).
    exists tail. split; [congruence | exact Ht].
  - rewrite (entry_line_status_throw entry e Es) in H. discriminate.
Qed.

Lemma rendered_nonempty (entry : directory_entry) (line : string) :
  rendered entry line -> line <> "".
Proof.
  intros H. destruct (rendered_shape entry line H) as (tail & -> & Ht & _).
  destruct (filename entry); simpl; [exact Ht | discriminate].
Qed.

Lemma rendered_last_char (entry : directory_entry) (line : string) :
  rendered entry line -> last_char line <> Some newline.
Proof.
  intros H. destruct (rendered_shape entry line H) as (tail & -> & Ht & Hl & _).
  now rewrite last_char_append.
Qed.

Lemma rendered_nul_free (entry : directory_entry) (line : string) :
  rendered entry line ->
  nul_free (filename entry) = true -> nul_free line = true.
Proof.
  intros H Hn.
  destruct (rendered_shape entry line H) as (tail & -> & _ & _ & Ht & _).
  now rewrite nul_free_append, Hn, Ht.
Qed.

Lemma rendered_newline_free (entry : directory_entry) (line : string) :
  rendered entry line ->
  newline_free (filename entry) = true -> newline_free line = true.
Proof.
  intros H Hn.
  destruct (rendered_shape entry line H) as (tail & -> & _ & _ & _ & Ht).
  now rewrite newline_free_append, Hn, Ht.
Qed.

Lemma concat_nul_free (sep : string) (items : list string) :
  nul_free sep = true ->
  Forall (fun item => nul_free item = true) items ->
  nul_free (String.concat sep items) = true.
Proof.
  intros Hsep. induction 1 as [|item rest Hi Hrest IH]; [reflexivity|].
  destruct rest as [|item' rest]; [exact Hi|].
  change (String.concat sep (item :: item' :: rest))
    with (item ++ sep ++ String.concat sep (item' :: rest)).
  now rewrite !nul_free_append, Hi, Hsep, IH.
Qed.

Lemma last_char_concat (sep : string) (items : list string) :
  last items "" <> "" ->
  last_char (String.concat sep items) = last_char (last items "").
Proof.
  induction items as [|item rest IH]; intros Hlast; [contradiction|].
  destruct rest as [|item' rest]; [reflexivity|].
  change (last (item :: item' :: rest) "") with (last (item' :: rest) "")
    in Hlast |- *.
  specialize (IH Hlast).
  change (String.concat sep (item :: item' :: rest))
    with (item ++ sep ++ String.concat sep (item' :: rest)).
  assert (Hne : String.concat sep (item' :: rest) <> "").
  { intros E. rewrite E in IH. symmetry in IH.
    now apply (last_char_nonempty _ Hlast). }
  rewrite <- append_assoc, last_char_append by exact Hne.
  exact IH.
Qed.

Lemma text_lines_one (a : string) :
  newline_free a = true -> text_lines a = [a].
Proof.
  induction a as [|c a IH]; simpl; [reflexivity|].
  destruct (Ascii.eqb c newline); simpl; [discriminate|].
  intros H. now rewrite IH.
Qed.

Lemma text_lines_cut (a b : string) :
  newline_free a = true ->
  text_lines (a ++ nl ++ b) = a :: text_lines b.
Proof.
  change (nl ++ b) with (String newline b).
  induction a as [|c a IH]; simpl; [reflexivity|].
  destruct (Ascii.eqb c newline); simpl; [discriminate|].
  intros H. now rewrite IH.
Qed.

Lemma text_lines_concat (items : list string) :
  items <> [] ->
  Forall (fun item => newline_free item = true) items ->
  text_lines (String.concat nl items) = items.
Proof.
  intros Hne H. induction H as [|item rest Hi Hrest IH]; [contradiction|].
  destruct rest as [|item' rest]; [now apply text_lines_one|].
  change (String.concat nl (item :: item' :: rest))
    with (item ++ nl ++ String.concat nl (item' :: rest)).
  rewrite text_lines_cut by exact Hi.
  now rewrite IH.
Qed.

Lemma rendered_all_newline_free (entries : list directory_entry)
  (lines : list string) :
  Forall2 rendered entries lines ->
  Forall (fun entry => newline_free (filename entry) = true) entries ->
  Forall (fun line => newline_free line = true) lines.
Proof.
  induction 1 as [|entry line entries lines Hr _ IH]; intros Hn.
  - constructor.
  - inversion Hn; subst. constructor; [|now apply IH].
    now apply (rendered_newline_free entry).
Qed.

Lemma rendered_last (entries : list directory_entry) (lines : list string) :
  Forall2 rendered entries lines ->
  entries <> [] ->
  exists entry, rendered entry (last lines "").
Proof.
  induction 1 as [|entry line entries lines Hr Hrest IH]; [contradiction|].
  intros _. destruct Hrest as [|entry' line' entries lines Hr' Hrest].
  - now exists entry.
  - apply IH. discriminate.
Qed.

(** What [load_fonts_info] returns on a directory whose walk meets no
    fault. *)
Lemma load_fonts_info_listing (fs : filesystem) (directory : string)
  (entries : list directory_entry) :
  status fs directory = Normal ft_directory ->
  directory_iterator fs directory = listing entries ->
  Forall status_known entries ->
  exists lines,
    Forall2 rendered entries lines
    /\ load_fonts_info fs directory
       = Normal
           match lines with
           | [] => "目录 '" ++ directory ++ "' 中没有找到任何文件"
           | _ :: _ =>
               "目录: " ++ directory ++ nl
               ++ "找到 " ++ decimal (N.of_nat (length lines))
               ++ " 个项目:" ++ nl ++ nl
               ++ String.concat nl lines
           end.
Proof.
  intros Hs Hit Hk.
  destruct (transform_listing entries Hk []) as (lines & Hrun & Hall).
  exists lines. split; [exact Hall|].
  unfold load_fonts_info, load_fonts_info_try, fs_exists, fs_is_directory.
  rewrite Hs, Hit, Hrun. cbn [bind try_catch app].
  destruct lines as [|line lines].
  - simpl. reflexivity.
  - unfold str_of, sbind, put. cbv beta match.
    rewrite join_concat, !append_assoc. reflexivity.
Qed.

End SystemFontsFacts.

(** ** The reporter's specification *)

Module ReporterSpec.

Import SystemFonts Report Samples CxxFacts SystemFontsFacts.

Lemma sample_entries_known : Forall status_known [a_txt; b_dir].
Proof. repeat (constructor; [eexists; reflexivity|]). constructor. Qed.

(** C1. For a directory with N >= 1 immediate entries whose walk meets no
    fault, the report is a header that states the count N followed by the
    join of exactly N rendered entry lines, one per entry and in the order of
    the walk: the stated count is the number of rendered lines.  The lines
    are the strings rendered per entry; when neither the path nor a file
    name holds a newline they are also the text lines of the report after
    its three header lines. *)
Theorem header_count_is_line_count (fs : filesystem) (directory : string)
  (entries : list directory_entry) :
  status fs directory = Normal ft_directory ->
  directory_iterator fs directory = listing entries ->
  Forall status_known entries ->
  1 <= length entries ->
  exists lines report,
    load_fonts_info fs directory = Normal report
    /\ Forall2 rendered entries lines
    /\ length lines = length entries
    /\ report
       = ("目录: " ++ directory ++ nl
          ++ "找到 " ++ decimal (N.of_nat (length entries))
          ++ " 个项目:" ++ nl ++ nl)
         ++ join lines nl
    /\ (newline_free directory = true ->
        Forall (fun entry => newline_free (filename entry) = true) entries ->
        text_lines report
        = ("目录: " ++ directory)
          :: ("找到 " ++ decimal (N.of_nat (length entries)) ++ " 个项目:")
          :: "" :: lines).
Proof.
  intros Hs Hit Hk Hn.
  destruct (load_fonts_info_listing fs directory entries Hs Hit Hk)
    as (lines & Hall & Hrun).
  pose proof (Forall2_length Hall) as Hlen.
  destruct lines as [|line lines].
  { simpl in Hlen. lia. }
  cbv beta match in Hrun. rewrite <- Hlen in Hrun.
  exists (line :: lines). eexists. split; [exact Hrun|].
  split; [exact Hall|]. split; [now symmetry|].
  rewrite join_concat. split.
  - now rewrite !append_assoc.
  - intros Hd Hnames.
    assert (Hl : Forall (fun l => newline_free l = true) (line :: lines))
      by now apply (rendered_all_newline_free entries).
    change ("目录: " ++ directory ++ nl
            ++ "找到 " ++ decimal (N.of_nat (length entries))
            ++ " 个项目:" ++ nl ++ nl ++ String.concat nl (line :: lines))
      with (("目录: " ++ directory) ++ nl
            ++ "找到 " ++ decimal (N.of_nat (length entries))
            ++ " 个项目:" ++ nl ++ nl ++ String.concat nl (line :: lines)).
    rewrite text_lines_cut
      by (rewrite newline_free_append, Hd; reflexivity).
    rewrite <- (append_assoc "找到 " _ (_ ++ _)).
    rewrite <- (append_assoc _ " 个项目:" _).
    rewrite text_lines_cut
      by (rewrite !newline_free_append, decimal_newline_free; reflexivity).
    change (nl ++ String.concat nl (line :: lines))
      with ("" ++ nl ++ String.concat nl (line :: lines)).
    rewrite text_lines_cut by reflexivity.
    rewrite text_lines_concat by (discriminate || exact Hl).
    now rewrite append_assoc.
Qed.

Lemma header_count_is_line_count_witness :
  exists lines report,
    load_fonts_info sample_fs "/tmp/x" = Normal report
    /\ length lines = 2
    /\ text_lines report = "目录: /tmp/x" :: "找到 2 个项目:" :: "" :: lines.
Proof.
  destruct (header_count_is_line_count sample_fs "/tmp/x" [a_txt; b_dir])
    as (lines & report & Hrun & _ & Hlen & _ & Htext).
  - reflexivity.
  - reflexivity.
  - exact sample_entries_known.
  - simpl. lia.
  - exists lines, report. split; [exact Hrun|]. split; [exact Hlen|].
    apply Htext; [reflexivity|].
    repeat (constructor; [reflexivity|]). constructor.
Defined.

(** C7. For a directory with at least one entry whose walk meets no fault,
    the report is, joined by newlines and in this order: the header line
    with the path, the line with the total entry count, an empty line, and
    the entry lines joined by newline. *)
Theorem report_layout (fs : filesystem) (directory : string)
  (entries : list directory_entry) :
  status fs directory = Normal ft_directory ->
  directory_iterator fs directory = listing entries ->
  Forall status_known entries ->
  entries <> [] ->
  exists lines,
    Forall2 rendered entries lines
    /\ load_fonts_info fs directory
       = Normal
           (String.concat nl
              ["目录: " ++ directory;
               "找到 " ++ decimal (N.of_nat (length entries)) ++ " 个项目:";
               "";
               String.concat nl lines]).
Proof.
  intros Hs Hit Hk Hne.
  destruct (load_fonts_info_listing fs directory entries Hs Hit Hk)
    as (lines & Hall & Hrun).
  exists lines. split; [exact Hall|].
  rewrite Hrun, <- (Forall2_length Hall).
  destruct Hall as [|entry line entries lines _ _]; [contradiction|].
  cbn [String.concat]. now rewrite !append_assoc.
Qed.

Lemma report_layout_witness :
  exists lines,
    Forall2 rendered [a_txt; b_dir] lines
    /\ load_fonts_info sample_fs "/tmp/x"
       = Normal
           (String.concat nl
              ["目录: /tmp/x"; "找到 2 个项目:"; ""; String.concat nl lines]).
Proof.
  apply (report_layout sample_fs "/tmp/x" [a_txt; b_dir]);
    [reflexivity | reflexivity | exact sample_entries_known | discriminate].
Defined.

(** C10. In the report on a non-empty directory the entry lines are joined
    with one newline between consecutive lines and none after the last: the
    report ends with the last character of the last entry line, and that
    character is not a newline. *)
Theorem report_ends_with_last_line (fs : filesystem) (directory : string)
  (entries : list directory_entry) :
  status fs directory = Normal ft_directory ->
  directory_iterator fs directory = listing entries ->
  Forall status_known entries ->
  entries <> [] ->
  exists lines report,
    load_fonts_info fs directory = Normal report
    /\ Forall2 rendered entries lines
    /\ (exists header, report = header ++ String.concat nl lines)
    /\ last_char (last lines "") <> None
    /\ last_char report = last_char (last lines "")
    /\ last_char report <> Some newline.
Proof.
  intros Hs Hit Hk Hne.
  destruct (load_fonts_info_listing fs directory entries Hs Hit Hk)
    as (lines & Hall & Hrun).
  destruct (rendered_last entries lines Hall Hne) as [entry Hlast].
  pose proof (rendered_nonempty _ _ Hlast) as Hnonempty.
  pose proof (last_char_concat nl lines Hnonempty) as Hjoin.
  assert (Hbody : String.concat nl lines <> "").
  { intros E. rewrite E in Hjoin. symmetry in Hjoin.
    now apply (last_char_nonempty _ Hnonempty). }
  destruct lines as [|line lines]; [contradiction|].
  cbv beta match in Hrun.
  assert (Hend : last_char
                   ("目录: " ++ directory ++ nl
                    ++ "找到 " ++ decimal (N.of_nat (length (line :: lines)))
                    ++ " 个项目:" ++ nl ++ nl
                    ++ String.concat nl (line :: lines))
                 = last_char (last (line :: lines) "")).
  { rewrite <- !append_assoc, last_char_append by exact Hbody.
    exact Hjoin. }
  exists (line :: lines). eexists. split; [exact Hrun|].
  split; [exact Hall|]. split.
  { eexists. rewrite <- !append_assoc. reflexivity. }
  split; [now apply last_char_nonempty|].
  split; [exact Hend|].
  rewrite Hend. now apply (rendered_last_char entry).
Qed.

Lemma report_ends_with_last_line_witness :
  exists report,
    load_fonts_info sample_fs "/tmp/x" = Normal report
    /\ last_char report = Some "]"%char.
Proof.
  destruct (report_ends_with_last_line sample_fs "/tmp/x" [a_txt; b_dir])
    as (lines & report & Hrun & _ & _ & _ & _ & _).
  - reflexivity.
  - reflexivity.
  - exact sample_entries_known.
  - discriminate.
  - exists report. split; [exact Hrun|].
    injection Hrun as <-. reflexivity.
Defined.

(** C6. For an existing directory with no entry the report is the message
    that nothing was found in it, and that message differs from the
    path-not-found message and from the not-a-directory message, whatever
    the paths they name. *)
Theorem empty_directory_message (fs : filesystem) (directory : string) :
  status fs directory = Normal ft_directory ->
  directory_iterator fs directory = dir_end ->
  load_fonts_info fs directory
  = Normal ("目录 '" ++ directory ++ "' 中没有找到任何文件")
  /\ (forall p,
         "目录 '" ++ directory ++ "' 中没有找到任何文件"
         <> "错误: 目录 '" ++ p ++ "' 不存在")
  /\ (forall p,
         "目录 '" ++ directory ++ "' 中没有找到任何文件"
         <> "错误: '" ++ p ++ "' 不是一个目录").
Proof.
  intros Hs Hit. split; [|split].
  - unfold load_fonts_info, load_fonts_info_try, fs_exists, fs_is_directory.
    rewrite Hs, Hit. reflexivity.
  - intros p H. simpl in H. discriminate H.
  - intros p H. simpl in H. discriminate H.
Qed.

Lemma empty_directory_message_witness :
  load_fonts_info sample_fs "/tmp/empty"
  = Normal "目录 '/tmp/empty' 中没有找到任何文件".
Proof.
  apply (empty_directory_message sample_fs "/tmp/empty"); reflexivity.
Defined.

(** C4. The two checks come in order.  When the path does not exist the
    result is the ordinary string that says so and names the path, also
    though such a path is no directory either; when it exists and is not a
    directory the result is another string, which names the path too.
    Neither case throws. *)
Theorem validation_in_order (fs : filesystem) (directory : string)
  (t : file_type) :
  status fs directory = Normal t ->
  t <> ft_directory ->
  exists msg,
    load_fonts_info fs directory = Normal msg
    /\ msg = (if status_exists t
              then "错误: '" ++ directory ++ "' 不是一个目录"
              else "错误: 目录 '" ++ directory ++ "' 不存在")
    /\ names_path msg directory
    /\ "错误: 目录 '" ++ directory ++ "' 不存在"
       <> "错误: '" ++ directory ++ "' 不是一个目录".
Proof.
  intros Hs Ht. eexists. split; [|split; [reflexivity|split]].
  - unfold load_fonts_info, load_fonts_info_try, fs_exists, fs_is_directory.
    rewrite Hs. destruct t; try contradiction; reflexivity.
  - destruct (status_exists t).
    + now exists "错误: '", "' 不是一个目录".
    + now exists "错误: 目录 '", "' 不存在".
  - intros H. simpl in H. congruence.
Qed.

Lemma validation_in_order_witness :
  (exists msg,
      load_fonts_info sample_fs "/nope" = Normal msg
      /\ msg = "错误: 目录 '/nope' 不存在")
  /\ (exists msg,
         load_fonts_info sample_fs "/etc/hosts" = Normal msg
         /\ msg = "错误: '/etc/hosts' 不是一个目录").
Proof.
  split.
  - destruct (validation_in_order sample_fs "/nope" ft_not_found)
      as (msg & Hrun & Hmsg & _); [reflexivity | discriminate |].
    exists msg. split; [exact Hrun | exact Hmsg].
  - destruct (validation_in_order sample_fs "/etc/hosts" ft_regular)
      as (msg & Hrun & Hmsg & _); [reflexivity | discriminate |].
    exists msg. split; [exact Hrun | exact Hmsg].
Defined.

(** C5. [load_fonts_info] always returns a string and never throws.  The
    faults its [try] block can raise are those of the status of the path, of
    opening or advancing the directory iterator, and of the status of an
    entry; whenever one is raised, the string returned is the one aggregate
    message that ends with the description of that fault. *)
Theorem faults_become_one_message (fs : filesystem) (directory : string) :
  (exists report, load_fonts_info fs directory = Normal report)
  /\ (forall e,
         load_fonts_info_try fs directory = Throw e
         <-> enumeration_fault fs directory = Some e)
  /\ (forall e,
         enumeration_fault fs directory = Some e ->
         load_fonts_info fs directory
         = Normal ("访问目录时发生错误: " ++ std_string (what e))).
Proof.
  assert (Hthrow : forall e,
             load_fonts_info_try fs directory = Throw e
             <-> enumeration_fault fs directory = Some e).
  { intros e. unfold enumeration_fault, load_fonts_info_try,
      fs_exists, fs_is_directory.
    destruct (status fs directory) as [t|e']; cbn [bind].
    - destruct t; cbn; try (split; discriminate);
        destruct (transform (directory_iterator fs directory) [])
          as [[|line lines]|e'] eqn:Hrun; cbn;
        rewrite <- (transform_throw _ []), Hrun; split; congruence.
    - split; congruence. }
  split; [|split; [exact Hthrow|]].
  - unfold load_fonts_info.
    destruct (load_fonts_info_try fs directory); simpl; eauto.
  - intros e He. apply Hthrow in He.
    unfold load_fonts_info. now rewrite He.
Qed.

Lemma faults_become_one_message_witness :
  load_fonts_info sample_fs "/root"
  = Normal "访问目录时发生错误: filesystem error: directory iterator cannot open directory: Permission denied [/root]"
  /\ load_fonts_info sample_fs "/mnt" = load_fonts_info sample_fs "/root".
Proof.
  split.
  - destruct (faults_become_one_message sample_fs "/root") as (_ & _ & H).
    apply (H denied). reflexivity.
  - destruct (faults_become_one_message sample_fs "/mnt") as (_ & _ & H).
    rewrite (H denied) by reflexivity. reflexivity.
Defined.

(** C3, as the code has it.  The kind of an entry is the one its status
    gives, symbolic links followed.  When that kind can be read and is not a
    regular file, the line is the name, the arrow and a marker fixed by the
    kind: the directory marker for a directory, the other-type marker for
    every other kind, devices, pipes and sockets among them, and a link that
    leads to nothing. *)
Theorem kind_marker (entry : directory_entry) (t : file_type) :
  entry_status entry = Normal t ->
  t <> ft_regular ->
  entry_line entry
  = Normal (filename entry ++ " -> "
            ++ (if file_type_eqb t ft_directory then "[目录]"
                else "[其他类型]")).
Proof.
  intros Hs Hr.
  destruct (file_type_eqb t ft_directory) eqn:Ed.
  - destruct t; try discriminate Ed. now apply entry_line_directory.
  - apply (entry_line_other entry t Hs Hr). intros ->. discriminate Ed.
Qed.

Lemma kind_marker_witness :
  entry_line b_dir = Normal "b -> [目录]"
  /\ entry_line sock = Normal "ctl.sock -> [其他类型]"
  /\ entry_line dangling = Normal "old.ttf -> [其他类型]".
Proof.
  split; [|split].
  - apply (kind_marker b_dir ft_directory); [reflexivity | discriminate].
  - apply (kind_marker sock ft_socket); [reflexivity | discriminate].
  - apply (kind_marker dangling ft_not_found); [reflexivity | discriminate].
Defined.

(** C3 as stated fails for symbolic links: [latest.ttf] is a symbolic link,
    neither a directory nor a regular file itself, and its line is not the
    other-type line but the line of the 12-byte file it leads to. *)
Lemma symlink_is_rendered_by_its_target :
  symlink_status latest_ttf = Normal ft_symlink
  /\ entry_line latest_ttf = Normal "latest.ttf -> 12 Bytes"
  /\ entry_line latest_ttf <> Normal "latest.ttf -> [其他类型]".
Proof.
  split; [reflexivity|]. split; [reflexivity|].
  intros H. vm_compute in H. discriminate H.
Qed.

(** C8. The report is a function of what the file system answers about the
    path and its listing: two calls that meet the same status of the path
    and the same directory stream return the same result, whatever else
    differs in the file system. *)
Theorem same_directory_same_report (fs1 fs2 : filesystem)
  (directory : string) :
  status fs1 directory = status fs2 directory ->
  directory_iterator fs1 directory = directory_iterator fs2 directory ->
  load_fonts_info fs1 directory = load_fonts_info fs2 directory.
Proof.
  intros Hs Hit.
  unfold load_fonts_info, load_fonts_info_try, fs_exists, fs_is_directory.
  now rewrite Hs, Hit.
Qed.

Lemma same_directory_same_report_witness :
  load_fonts_info sample_fs "/tmp/x" = load_fonts_info other_fs "/tmp/x"
  /\ load_fonts_info sample_fs "/nope" <> load_fonts_info other_fs "/nope".
Proof.
  split.
  - apply (same_directory_same_report sample_fs other_fs "/tmp/x");
      reflexivity.
  - intros H. vm_compute in H. discriminate H.
Defined.

(** C2, where the code departs from it.  For the regular file [locked.ttf],
    whose size cannot be read, the arrow is already in the stream when the
    lookup throws and the handler writes an arrow of its own: the line holds
    two arrows, not the name, one arrow and the marker.  The walk goes on to
    the next entry and the report is returned. *)
Theorem unreadable_size_doubles_arrow :
  entry_line locked_ttf = Normal "locked.ttf ->  -> 无法读取文件大小"
  /\ entry_line locked_ttf
     <> Normal ("locked.ttf" ++ " -> " ++ "无法读取文件大小")
  /\ load_fonts_info sample_fs "/fonts"
     = Normal
         (String.concat nl
            ["目录: /fonts"; "找到 2 个项目:"; "";
             "locked.ttf ->  -> 无法读取文件大小";
             "a.txt -> 12 Bytes"]).
Proof.
  split; [reflexivity|]. split; [|reflexivity].
  intros H. vm_compute in H. discriminate H.
Qed.

(** X1. A regular file whose size S can be read is rendered as its name, the
    arrow, S in decimal and the unit marker. *)
Theorem file_line_states_size (entry : directory_entry) (size : N) :
  entry_status entry = Normal ft_regular ->
  file_size entry = Normal size ->
  entry_line entry
  = Normal (filename entry ++ " -> " ++ decimal size ++ " Bytes").
Proof. apply entry_line_file_sized. Qed.

Lemma file_line_states_size_witness :
  entry_line a_txt = Normal "a.txt -> 12 Bytes".
Proof. apply (file_line_states_size a_txt 12); reflexivity. Defined.

(** X2. A failing size lookup costs one line only: whatever the lookup
    gives, a regular file is rendered to a line, so in a directory whose
    entries all have a readable kind the walk renders every entry and the
    report is returned. *)
Theorem size_fault_is_local (fs : filesystem) (directory : string)
  (entries : list directory_entry) :
  status fs directory = Normal ft_directory ->
  directory_iterator fs directory = listing entries ->
  Forall status_known entries ->
  exists lines report,
    Forall2 rendered entries lines
    /\ load_fonts_info fs directory = Normal report
    /\ (exists header, report = header ++ String.concat nl lines).
Proof.
  intros Hs Hit Hk.
  destruct (load_fonts_info_listing fs directory entries Hs Hit Hk)
    as (lines & Hall & Hrun).
  exists lines. eexists. split; [exact Hall|]. split; [exact Hrun|].
  destruct lines as [|line lines].
  - eexists. simpl. rewrite append_empty_r. reflexivity.
  - eexists. rewrite <- !append_assoc. reflexivity.
Qed.

Lemma size_fault_is_local_witness :
  exists lines report,
    Forall2 rendered [locked_ttf; a_txt] lines
    /\ load_fonts_info sample_fs "/fonts" = Normal report
    /\ (exists header, report = header ++ String.concat nl lines).
Proof.
  apply (size_fault_is_local sample_fs "/fonts" [locked_ttf; a_txt]);
    [reflexivity | reflexivity |].
  repeat (constructor; [eexists; reflexivity|]). constructor.
Defined.

End ReporterSpec.

(** ** The bridge's specification *)

Module BridgeSpec.

Import SystemFonts Jni Report Samples CxxFacts SystemFontsFacts.

Lemma Normal_inj {A : Type} (a b : A) : Normal a = Normal b -> a = b.
Proof. now intros [= ->]. Qed.

(** The walk adds lines without NUL to lines without NUL. *)
Lemma transform_nul_free (it : directory_stream) :
  names_nul_free it = true ->
  forall fontfiles out,
    Forall (fun line => nul_free line = true) fontfiles ->
    transform it fontfiles = Normal out ->
    Forall (fun line => nul_free line = true) out.
Proof.
  induction it as [|entry rest IH|e]; simpl; intros Hn fontfiles out Hacc Hrun.
  - now injection Hrun as <-.
  - apply andb_true_iff in Hn as [Hname Hrest].
    destruct (entry_line entry) as [line|e] eqn:Hline; [|discriminate].
    apply (IH Hrest _ _) in Hrun; [exact Hrun|].
    apply Forall_app. split; [exact Hacc|].
    constructor; [|constructor].
    now apply (rendered_nul_free entry).
  - discriminate.
Qed.

(** No report holds a NUL when the path and the file names hold none. *)
Lemma report_nul_free (fs : filesystem) (directory report : string) :
  nul_free directory = true ->
  names_nul_free (directory_iterator fs directory) = true ->
  load_fonts_info fs directory = Normal report ->
  nul_free report = true.
Proof.
  intros Hd Hn.
  unfold load_fonts_info, load_fonts_info_try, fs_exists, fs_is_directory.
  destruct (status fs directory) as [t|e]; cbn [bind try_catch].
  - destruct (status_exists t); cbn [negb].
    + destruct (file_type_eqb t ft_directory); cbn [negb].
      * destruct (transform (directory_iterator fs directory) [])
          as [lines|e] eqn:Hrun; cbn [bind try_catch].
        -- pose proof (transform_nul_free _ Hn [] lines (Forall_nil _) Hrun)
             as Hlines.
           destruct lines as [|line lines]; cbn [try_catch].
           ++ intros <-%Normal_inj. now rewrite !nul_free_append, Hd.
           ++ unfold str_of, sbind, put. cbv beta match.
              intros <-%Normal_inj.
              rewrite !nul_free_append, Hd, decimal_nul_free, join_concat.
              rewrite concat_nul_free by (reflexivity || exact Hlines).
              reflexivity.
        -- intros <-%Normal_inj. rewrite nul_free_append.
           unfold std_string. now rewrite until_nul_nul_free.
      * intros <-%Normal_inj. now rewrite !nul_free_append, Hd.
    + intros <-%Normal_inj. now rewrite !nul_free_append, Hd.
  - intros <-%Normal_inj. rewrite nul_free_append.
    unfold std_string. now rewrite until_nul_nul_free.
Qed.

Section Bridge.

Variable jstring : Type.
Variable GetStringUTFChars : jstring -> string.
Variable NewStringUTF : string -> jstring.

(** C9. For every input handle the bridge returns, without a failure path
    of its own, the handle built from exactly the string that
    [load_fonts_info] produces for the converted input: since file names
    hold no NUL, no byte of the report is lost when it is handed on as a
    C string. *)
Theorem bridge_passes_report_through (fs : filesystem)
  (directory : jstring) :
  names_nul_free
    (directory_iterator fs
       (string_from_jstring jstring GetStringUTFChars directory)) = true ->
  exists report,
    load_fonts_info fs
      (string_from_jstring jstring GetStringUTFChars directory)
    = Normal report
    /\ Java_androidx_appcompat_demo_MainActivity_loadFontsInfo
         jstring GetStringUTFChars NewStringUTF fs directory
       = Normal (NewStringUTF report).
Proof.
  intros Hn.
  destruct (load_fonts_info fs
              (string_from_jstring jstring GetStringUTFChars directory))
    as [report|e] eqn:Hrun.
  - exists report. split; [reflexivity|].
    unfold Java_androidx_appcompat_demo_MainActivity_loadFontsInfo.
    rewrite Hrun. cbn [bind]. unfold c_str.
    rewrite until_nul_fixed; [reflexivity|].
    apply (report_nul_free fs _ report) in Hrun; [exact Hrun| |exact Hn].
    apply until_nul_nul_free.
  - exfalso. unfold load_fonts_info in Hrun.
    destruct (load_fonts_info_try fs _); discriminate Hrun.
Qed.

End Bridge.

Lemma bridge_passes_report_through_witness :
  exists report,
    load_fonts_info sample_fs "/tmp/x" = Normal report
    /\ Java_androidx_appcompat_demo_MainActivity_loadFontsInfo
         string (fun jstr => jstr) (fun bytes => bytes) sample_fs "/tmp/x"
       = Normal report.
Proof.
  apply (bridge_passes_report_through string (fun jstr => jstr)
           (fun bytes => bytes) sample_fs "/tmp/x").
  reflexivity.
Defined.

End BridgeSpec.

(** ** What [join] guarantees on its own *)

Module JoinSpec.

Import SystemFonts Report Outcomes CxxFacts SystemFontsFacts.

Lemma length_append (a b : string) :
  String.length (a ++ b) = String.length a + String.length b.
Proof. induction a as [|c a IH]; simpl; [reflexivity | now rewrite IH]. Qed.

Lemma concat_app (sep : string) (xs ys : list string) :
  xs <> [] -> ys <> [] ->
  String.concat sep (xs ++ ys)
  = String.concat sep xs ++ sep ++ String.concat sep ys.
Proof.
  intros Hx Hy. induction xs as [|x xs IH]; [contradiction|].
  destruct xs as [|x' xs].
  - destruct ys as [|y ys]; [contradiction | reflexivity].
  - change (String.concat sep ((x :: x' :: xs) ++ ys))
      with (x ++ sep ++ String.concat sep ((x' :: xs) ++ ys)).
    rewrite IH by discriminate.
    change (String.concat sep (x :: x' :: xs))
      with (x ++ sep ++ String.concat sep (x' :: xs)).
    now rewrite !append_assoc.
Qed.

(** X3. Joining two non-empty sequences one after the other is joining each
    and putting one separator between the two results: [join] writes the
    separator between neighbours only, never before the first item or after
    the last. *)
Theorem join_of_two_parts (xs ys : list string) (sep : string) :
  xs <> [] -> ys <> [] ->
  join (xs ++ ys) sep = join xs sep ++ sep ++ join ys sep.
Proof. intros Hx Hy. rewrite !join_concat. now apply concat_app. Qed.

Lemma join_of_two_parts_witness :
  join (["a"; "b"] ++ ["c"]) ", " = join ["a"; "b"] ", " ++ ", " ++ join ["c"] ", ".
Proof. apply (join_of_two_parts ["a"; "b"] ["c"] ", "); discriminate. Defined.

(** X4. The result of [join] has the bytes of all items and, for n >= 1
    items, n - 1 separators: its length is the sum of the lengths of the
    items plus (n - 1) times the length of the separator; for no item it is
    empty. *)
Theorem join_length (arr : list string) (sep : string) :
  String.length (join arr sep)
  = total_length arr + (List.length arr - 1) * String.length sep.
Proof.
  rewrite join_concat.
  induction arr as [|item rest IH]; [reflexivity|].
  destruct rest as [|item' rest].
  - simpl. lia.
  - change (String.concat sep (item :: item' :: rest))
      with (item ++ sep ++ String.concat sep (item' :: rest)).
    rewrite !length_append, IH. cbn [total_length List.length]. lia.
Qed.

(** X5. Splitting at newlines undoes joining with a newline: for at least
    one item, none of which holds a newline, the text lines of
    [join lines "\n"] are the items again, in order. *)
Theorem join_then_split (lines : list string) :
  lines <> [] ->
  Forall (fun line => newline_free line = true) lines ->
  text_lines (join lines nl) = lines.
Proof. intros Hne Hfree. rewrite join_concat. now apply text_lines_concat. Qed.

Lemma join_then_split_witness :
  text_lines (join ["a.txt -> 12 Bytes"; ""; "b -> [目录]"] nl)
  = ["a.txt -> 12 Bytes"; ""; "b -> [目录]"].
Proof.
  apply (join_then_split ["a.txt -> 12 Bytes"; ""; "b -> [目录]"]).
  - discriminate.
  - repeat (constructor; [reflexivity|]). constructor.
Defined.

End JoinSpec.

(** ** What the line of one entry guarantees *)

Module LineSpec.

Import SystemFonts Report Outcomes Samples MoreSamples CxxFacts
  SystemFontsFacts JoinSpec.
Import BridgeSpec.

Lemma append_cancel_l (a x y : string) : a ++ x = a ++ y -> x = y.
Proof.
  induction a as [|c a IH]; simpl; [now intros|].
  intros [= H]. now apply IH.
Qed.

Lemma append_cancel_r (c x : string) :
  forall y, x ++ c = y ++ c -> x = y.
Proof.
  induction x as [|a x IH]; intros [|b y] H; simpl in H.
  - reflexivity.
  - apply (f_equal String.length) in H. simpl in H.
    rewrite length_append in H. lia.
  - apply (f_equal String.length) in H. simpl in H.
    rewrite length_append in H. lia.
  - injection H as -> H. now rewrite (IH y H).
Qed.

(** Decimal rendering loses nothing of the number. *)
Lemma decimal_injective (n m : N) : decimal n = decimal m -> n = m.
Proof.
  unfold decimal. intros H.
  apply (f_equal NilEmpty.uint_of_string) in H.
  rewrite !NilEmpty.usu in H. injection H as H.
  apply (f_equal N.of_uint) in H.
  now rewrite !DecimalN.Unsigned.of_to in H.
Qed.

(** X6. Rendering an entry throws exactly when the status of the entry
    throws, and then the same exception: a fault of the size lookup never
    leaves the lambda. *)
Theorem only_status_faults_escape (entry : directory_entry) (e : exception) :
  entry_line entry = Throw e <-> entry_status entry = Throw e.
Proof.
  split; [|apply entry_line_status_throw].
  intros H. destruct (entry_status entry) as [t|e'] eqn:Es.
  - destruct (entry_line_known entry (ex_intro _ t Es)) as [line Hline].
    unfold rendered in Hline. congruence.
  - rewrite (entry_line_status_throw entry e' Es) in H. congruence.
Qed.

(** X7. Every line begins with the name of its entry, byte for byte and
    unescaped, followed by the arrow and a non-empty rest. *)
Theorem line_starts_with_name (entry : directory_entry) (line : string) :
  rendered entry line ->
  exists rest, line = filename entry ++ " -> " ++ rest /\ rest <> "".
Proof.
  unfold rendered. intros H.
  destruct (entry_status entry) as [t|e] eqn:Es.
  - destruct (file_type_eqb t ft_regular) eqn:Er.
    + assert (t = ft_regular) by (destruct t; try discriminate; reflexivity).
      subst t. destruct (file_size entry) as [n|e] eqn:En.
      * rewrite (entry_line_file_sized entry n Es En) in H.
        apply Normal_inj in H. subst line.
        exists (decimal n ++ " Bytes"). split; [reflexivity|].
        intros E. apply (f_equal String.length) in E.
        rewrite length_append in E. simpl in E. lia.
      * rewrite (entry_line_file_unsized entry e Es En) in H.
        apply Normal_inj in H. subst line.
        exists " -> 无法读取文件大小". split; [reflexivity | discriminate].
    + destruct (file_type_eqb t ft_directory) eqn:Ed.
      * assert (t = ft_directory)
          by (destruct t; try discriminate; reflexivity).
        subst t. rewrite (entry_line_directory entry Es) in H.
        apply Normal_inj in H. subst line.
        exists "[目录]". split; [reflexivity | discriminate].
      * rewrite (entry_line_other entry t Es) in H
          by (intros ->; discriminate).
        apply Normal_inj in H. subst line.
        exists "[其他类型]". split; [reflexivity | discriminate].
  - rewrite (entry_line_status_throw entry e Es) in H. discriminate.
Qed.

Lemma line_starts_with_name_witness :
  exists rest, "locked.ttf ->  -> 无法读取文件大小" = "locked.ttf" ++ " -> " ++ rest
               /\ rest <> "".
Proof. apply (line_starts_with_name locked_ttf). reflexivity. Defined.

(** X8. The size can be read back from the line of a regular file: for two
    regular files of the same name whose sizes are readable and differ, the
    lines differ. *)
Theorem size_is_exact (e1 e2 : directory_entry) (n1 n2 : N) :
  entry_status e1 = Normal ft_regular -> file_size e1 = Normal n1 ->
  entry_status e2 = Normal ft_regular -> file_size e2 = Normal n2 ->
  filename e1 = filename e2 ->
  n1 <> n2 ->
  entry_line e1 <> entry_line e2.
Proof.
  intros Hs1 Hn1 Hs2 Hn2 Hname Hneq H.
  rewrite (entry_line_file_sized e1 n1 Hs1 Hn1) in H.
  rewrite (entry_line_file_sized e2 n2 Hs2 Hn2) in H.
  apply Normal_inj in H. rewrite Hname in H.
  apply append_cancel_l, append_cancel_l, append_cancel_r in H.
  now apply Hneq, decimal_injective.
Qed.

Lemma size_is_exact_witness : entry_line a_txt <> entry_line a_txt_grown.
Proof.
  apply (size_is_exact a_txt a_txt_grown 12 13);
    try reflexivity. discriminate.
Defined.

End LineSpec.

(** ** What the whole report guarantees *)

Module WalkSpec.

Import SystemFonts Report Outcomes Samples MoreSamples CxxFacts
  SystemFontsFacts.

(** A stream without fault is the listing of its entries, all of a readable
    kind. *)
Lemma fault_free_listing (it : directory_stream) :
  stream_fault it = None ->
  exists entries, it = listing entries /\ Forall status_known entries.
Proof.
  induction it as [|entry rest IH|e]; simpl; intros H.
  - now exists [].
  - destruct (entry_status entry) as [t|e] eqn:Es; [|discriminate].
    destruct (IH H) as (entries & -> & Hk).
    exists (entry :: entries). split; [reflexivity|].
    constructor; [now exists t | exact Hk].
  - discriminate.
Qed.

Lemma rendered_line_text (entries : list directory_entry)
  (lines : list string) :
  Forall2 rendered entries lines -> lines = map line_text entries.
Proof.
  induction 1 as [|entry line entries lines Hr _ IH]; [reflexivity|].
  simpl. unfold line_text at 1. unfold rendered in Hr.
  now rewrite Hr, IH.
Qed.

(** X9. The kind of a result can be read off its first bytes, whatever the
    path, the file names and the fault descriptions are: the result always
    begins with the fixed text of its kind (path missing, not a directory,
    empty directory, listing, fault), and no two of these texts begin alike.
    In particular the result is never the empty string. *)
Theorem result_kind_is_readable (fs : filesystem) (directory : string) :
  exists msg,
    load_fonts_info fs directory = Normal msg
    /\ kind_of_message msg = Some (expected_kind fs directory)
    /\ msg <> "".
Proof.
  assert (Hkind : exists msg,
             load_fonts_info fs directory = Normal msg
             /\ kind_of_message msg = Some (expected_kind fs directory)).
  { unfold expected_kind.
    destruct (status fs directory) as [t|e] eqn:Hs.
    - destruct (status_exists t) eqn:Hex; cbn [negb].
      + destruct (file_type_eqb t ft_directory) eqn:Hdir; cbn [negb].
        * assert (t = ft_directory)
            by (destruct t; try discriminate; reflexivity).
          subst t.
          destruct (stream_fault (directory_iterator fs directory))
            as [e|] eqn:Hf.
          -- eexists. split.
             ++ unfold load_fonts_info, load_fonts_info_try,
                  fs_exists, fs_is_directory.
                rewrite Hs. cbn [bind status_exists file_type_eqb negb andb].
                rewrite (transform_fault _ e Hf). reflexivity.
             ++ reflexivity.
          -- destruct (fault_free_listing _ Hf) as (entries & Hit & Hk).
             destruct (load_fonts_info_listing fs directory entries Hs Hit Hk)
               as (lines & Hall & Hrun).
             rewrite Hrun, Hit. eexists. split; [reflexivity|].
             destruct Hall; reflexivity.
        * eexists. split.
          -- unfold load_fonts_info, load_fonts_info_try,
               fs_exists, fs_is_directory.
             rewrite Hs. cbn [bind]. rewrite Hex, Hdir. reflexivity.
          -- reflexivity.
      + eexists. split.
        * unfold load_fonts_info, load_fonts_info_try, fs_exists.
          rewrite Hs. cbn [bind]. rewrite Hex. reflexivity.
        * reflexivity.
    - eexists. split.
      + unfold load_fonts_info, load_fonts_info_try, fs_exists.
        rewrite Hs. reflexivity.
      + reflexivity. }
  destruct Hkind as (msg & Hrun & Hk). exists msg.
  split; [exact Hrun|]. split; [exact Hk|].
  intros ->. discriminate Hk.
Qed.

(** X10. The order in which the directory yields its entries decides the
    order of the entry lines and nothing else: two walks over the same
    entries in different orders give the same text before the entry lines,
    count included, and the same lines up to their order. *)
Theorem entry_order_only_reorders_lines (fs1 fs2 : filesystem)
  (directory : string) (entries1 entries2 : list directory_entry) :
  status fs1 directory = Normal ft_directory ->
  status fs2 directory = Normal ft_directory ->
  directory_iterator fs1 directory = listing entries1 ->
  directory_iterator fs2 directory = listing entries2 ->
  Forall status_known entries1 ->
  Permutation entries1 entries2 ->
  exists header lines1 lines2,
    load_fonts_info fs1 directory
    = Normal (header ++ String.concat nl lines1)
    /\ load_fonts_info fs2 directory
       = Normal (header ++ String.concat nl lines2)
    /\ Forall2 rendered entries1 lines1
    /\ Forall2 rendered entries2 lines2
    /\ Permutation lines1 lines2.
Proof.
  intros Hs1 Hs2 Hit1 Hit2 Hk1 Hperm.
  pose proof (Permutation_Forall Hperm Hk1) as Hk2.
  destruct (load_fonts_info_listing fs1 directory entries1 Hs1 Hit1 Hk1)
    as (lines1 & Hall1 & Hrun1).
  destruct (load_fonts_info_listing fs2 directory entries2 Hs2 Hit2 Hk2)
    as (lines2 & Hall2 & Hrun2).
  assert (Hlines : Permutation lines1 lines2).
  { rewrite (rendered_line_text _ _ Hall1), (rendered_line_text _ _ Hall2).
    now apply Permutation_map. }
  pose proof (Permutation_length Hlines) as Hlen.
  destruct lines1 as [|l1 lines1], lines2 as [|l2 lines2];
    try discriminate Hlen.
  - exists ("目录 '" ++ directory ++ "' 中没有找到任何文件"), [], [].
    cbn [String.concat]. rewrite append_empty_r. auto.
  - exists ("目录: " ++ directory ++ nl
            ++ "找到 " ++ decimal (N.of_nat (length (l1 :: lines1)))
            ++ " 个项目:" ++ nl ++ nl),
      (l1 :: lines1), (l2 :: lines2).
    rewrite Hrun1, Hrun2, <- Hlen, !append_assoc. auto 6.
Qed.

Lemma entry_order_only_reorders_lines_witness :
  exists header lines1 lines2,
    load_fonts_info sample_fs "/tmp/x"
    = Normal (header ++ String.concat nl lines1)
    /\ load_fonts_info swapped_fs "/tmp/x"
       = Normal (header ++ String.concat nl lines2)
    /\ Forall2 rendered [a_txt; b_dir] lines1
    /\ Forall2 rendered [b_dir; a_txt] lines2
    /\ Permutation lines1 lines2.
Proof.
  apply (entry_order_only_reorders_lines sample_fs swapped_fs "/tmp/x"
           [a_txt; b_dir] [b_dir; a_txt]); try reflexivity.
  - repeat (constructor; [eexists; reflexivity|]). constructor.
  - apply perm_swap.
Defined.

(** X11. Unless a fault is reported, the result holds the path exactly as
    it was given, byte for byte: no kind of result normalises, escapes or
    shortens it. *)
Theorem path_is_echoed (fs : filesystem) (directory : string) :
  enumeration_fault fs directory = None ->
  exists msg,
    load_fonts_info fs directory = Normal msg /\ names_path msg directory.
Proof.
  unfold enumeration_fault. intros Hf.
  destruct (status fs directory) as [t|e] eqn:Hs; [|discriminate].
  destruct (file_type_eqb t ft_directory) eqn:Hdir.
  - assert (t = ft_directory) by (destruct t; try discriminate; reflexivity).
    subst t.
    destruct (fault_free_listing _ Hf) as (entries & Hit & Hk).
    destruct (load_fonts_info_listing fs directory entries Hs Hit Hk)
      as (lines & _ & Hrun).
    rewrite Hrun. eexists. split; [reflexivity|].
    destruct lines.
    + now exists "目录 '", "' 中没有找到任何文件".
    + now eexists "目录: ", _.
  - unfold load_fonts_info, load_fonts_info_try, fs_exists, fs_is_directory.
    rewrite Hs. cbn [bind]. rewrite Hdir. cbn [negb].
    destruct (status_exists t); cbn [negb try_catch];
      (eexists; split; [reflexivity|]).
    + exists "错误: '", "' 不是一个目录". now rewrite append_assoc.
    + exists "错误: 目录 '", "' 不存在". now rewrite append_assoc.
Qed.

Lemma path_is_echoed_witness :
  exists msg,
    load_fonts_info sample_fs "/tmp/empty" = Normal msg
    /\ names_path msg "/tmp/empty".
Proof. apply (path_is_echoed sample_fs "/tmp/empty"). reflexivity. Defined.

End WalkSpec.

(** ** What the conversion of the bridge guarantees *)

Module ConversionSpec.

Import Jni CxxFacts.

Lemma until_nul_split (p : string) :
  exists rest,
    p = until_nul p ++ rest
    /\ (rest = "" \/ exists tail, rest = String zero tail).
Proof.
  induction p as [|c p (rest & Hp & Hrest)]; simpl.
  - exists "". now split; [|left].
  - destruct (Ascii.eqb c zero) eqn:Ec.
    + apply Ascii.eqb_eq in Ec. subst c.
      exists (String zero p). split; [reflexivity|]. right. now exists p.
    + exists rest. simpl. split; [now rewrite <- Hp | exact Hrest].
Qed.

Section Conversion.

Variable jstring : Type.
Variable GetStringUTFChars : jstring -> string.

(** X12. The string the bridge hands to the reporter holds no NUL and is
    the part of the bytes of the handle before their first NUL: all of
    them when they hold none, and otherwise what follows is cut off at a
    NUL. *)
Theorem string_from_jstring_stops_at_nul (jstr : jstring) :
  nul_free (string_from_jstring jstring GetStringUTFChars jstr) = true
  /\ (exists rest,
         GetStringUTFChars jstr
         = string_from_jstring jstring GetStringUTFChars jstr ++ rest
         /\ (rest = "" \/ exists tail, rest = String zero tail))
  /\ (nul_free (GetStringUTFChars jstr) = true ->
      string_from_jstring jstring GetStringUTFChars jstr
      = GetStringUTFChars jstr).
Proof.
  unfold string_from_jstring, std_string. cbv zeta.
  split; [apply until_nul_nul_free|]. split.
  - apply until_nul_split.
  - apply until_nul_fixed.
Qed.

End Conversion.

End ConversionSpec.

(** ** What [read_file] guarantees *)

Module ReadFileSpec.

Import SystemFonts FileReading Outcomes MoreSamples.

Lemma string_from_source (s : string) :
  string_from_iterators (source_of s) = Normal s.
Proof. induction s as [|c s IH]; simpl; [reflexivity | now rewrite IH]. Qed.

Lemma string_from_broken (s : string) (e : exception) :
  string_from_iterators (broken_after s e) = Throw e.
Proof. induction s as [|c s IH]; simpl; [reflexivity | now rewrite IH]. Qed.

(** X13. [read_file] returns the bytes of the file unchanged and all of
    them, NUL, newline and every other byte value included.  A file that
    cannot be opened reads as the empty string, as an empty file does, and
    nothing is thrown.  When the buffer throws while the file is read, after
    whatever number of bytes, the exception leaves [read_file] and the bytes
    read so far are not returned. *)
Theorem read_file_returns_every_byte (files : file_store) (path : string) :
  (forall s, files path = Some (source_of s) ->
             read_file files path = Normal s)
  /\ (files path = None -> read_file files path = Normal "")
  /\ (forall s e, files path = Some (broken_after s e) ->
                  read_file files path = Throw e).
Proof.
  unfold read_file. cbv zeta. split; [|split].
  - intros s ->. apply string_from_source.
  - now intros ->.
  - intros s e ->. apply string_from_broken.
Qed.

Lemma read_file_returns_every_byte_witness :
  read_file sample_files "/fonts/a.bin" = Normal a_bin
  /\ read_file sample_files "/fonts/missing" = read_file sample_files "/fonts/empty"
  /\ (exists e, read_file sample_files "/fonts/bad" = Throw e).
Proof.
  split; [|split].
  - destruct (read_file_returns_every_byte sample_files "/fonts/a.bin")
      as (H & _ & _).
    apply (H a_bin). reflexivity.
  - destruct (read_file_returns_every_byte sample_files "/fonts/missing")
      as (_ & H & _).
    rewrite H by reflexivity. reflexivity.
  - destruct (read_file_returns_every_byte sample_files "/fonts/bad")
      as (_ & _ & H).
    eexists. apply (H "x"). reflexivity.
Defined.

End ReadFileSpec.
